(** * web_novel_scraper: the content extraction pipeline

    A shallow embedding of [web_novel_scraper.py]: the text cleaner
    ([clean_text]), the content selector detector
    ([detect_content_selector]), the single-page scraper ([scrape_text]) and
    the batch orchestrator ([batch_scrape]), with the properties the
    specification states about them.

    Python [str] values are sequences of Unicode code points, so that [len]
    counts what Python counts.  The browser driver (selenium) and the markup
    parser (html.parser behind BeautifulSoup) are collaborators: the program
    is written against their interfaces, and so is this development. *)

From Stdlib Require Import ZArith NArith String Ascii DecimalString List Bool Lia.
From stdpp Require Import base option list gmap.

Set Default Proof Using "Type".
Local Open Scope N_scope.

(** ** Python strings *)

(** A character is its code point. *)
Definition char : Type := N.
Definition str : Type := list char.

(** Source literals are written as UTF-8 byte strings and decoded once. *)
Fixpoint utf8_decode (bs : list N) : str :=
  match bs with
  | [] => []
  | b0 :: bs1 =>
    if b0 <? 128 then b0 :: utf8_decode bs1
    else
      match bs1 with
      | [] => [b0]
      | b1 :: bs2 =>
        if b0 <? 224 then (N.land b0 31 * 64 + N.land b1 63) :: utf8_decode bs2
        else
          match bs2 with
          | [] => [b0; b1]
          | b2 :: bs3 =>
            if b0 <? 240
            then (N.land b0 15 * 4096 + N.land b1 63 * 64 + N.land b2 63)
                   :: utf8_decode bs3
            else
              match bs3 with
              | [] => [b0; b1; b2]
              | b3 :: bs4 =>
                (N.land b0 7 * 262144 + N.land b1 63 * 4096
                 + N.land b2 63 * 64 + N.land b3 63) :: utf8_decode bs4
              end
          end
      end
  end.

Definition py (s : string) : str :=
  utf8_decode (map N_of_ascii (list_ascii_of_string s)).

(** The newline character, and the paragraph separator ["\n\n"]. *)
Definition NL : char := 10.
Definition NL2 : str := [NL; NL].

(** Truthiness of a [str]: non-empty. *)
Definition truthy (s : str) : bool :=
  match s with [] => false | _ :: _ => true end.

(** [sep.join(xs)] *)
Fixpoint join (sep : str) (xs : list str) : str :=
  match xs with
  | [] => []
  | [x] => x
  | x :: rest => x ++ sep ++ join sep rest
  end.

(** [s.split(sep)] for a one-character separator: never returns [[]]. *)
Fixpoint split (sep : char) (s : str) : list str :=
  match s with
  | [] => [[]]
  | c :: s' =>
    if c =? sep then [] :: split sep s'
    else
      match split sep s' with
      | l :: ls => (c :: l) :: ls
      | [] => [[c]]
      end
  end.

(** [s.startswith(p)] and [needle in hay]. *)
Fixpoint startswith (p s : str) : bool :=
  match p, s with
  | [], _ => true
  | _ :: _, [] => false
  | a :: p', b :: s' => (a =? b) && startswith p' s'
  end.

Fixpoint contains (needle hay : str) : bool :=
  startswith needle hay
  || match hay with
     | [] => false
     | _ :: hay' => contains needle hay'
     end.

(** [str(n)] for a natural number and for an integer. *)
Definition str_of_N (n : N) : str :=
  py (NilEmpty.string_of_uint (N.to_uint n)).

Definition str_of_Z (z : Z) : str :=
  match z with
  | Zneg p => 45 :: str_of_N (Npos p)
  | _ => str_of_N (Z.to_N z)
  end.

(** The Unicode database Python consults: [str.isspace] (also the regular
    expression class [\s] and the characters [str.strip] removes),
    [str.isalnum] (with [_], the class [\w]) and [str.lower]. *)
Class Unicode := {
  isspace : char -> bool;
  isalnum : char -> bool;
  lower : str -> str
}.

Section PyStr.
Context {U : Unicode}.

Fixpoint lstrip (s : str) : str :=
  match s with
  | [] => []
  | c :: s' => if isspace c then lstrip s' else s
  end.

Definition rstrip (s : str) : str := rev (lstrip (rev s)).

(** [s.strip()] *)
Definition strip (s : str) : str := rstrip (lstrip s).

(** [\w] *)
Definition is_word (c : char) : bool := isalnum c || (c =? 95).

(** [[^\w\s]] *)
Definition is_punct (c : char) : bool := negb (is_word c) && negb (isspace c).

(** [re.match(r"^[^\w\s]+$", line)] as a truth value: one or more
    characters outside [\w] and [\s] up to the end of the string, where
    [$] also matches just before a final newline. *)
Definition all_punct (s : str) : bool := truthy s && forallb is_punct s.

Definition re_match_punct (line : str) : bool :=
  all_punct line
  || match rev line with
     | c :: body => (c =? NL) && all_punct (rev body)
     | [] => false
     end.
End PyStr.

(** ** The markup tree

    What BeautifulSoup builds from a fragment: text nodes, string nodes that
    [get_text] leaves out (comments, declarations) and tags with their
    children. *)
#[warnings="-register-all"]
Inductive node : Type :=
| NavigableString (s : str)
| Comment (s : str)
| Tag (name : str) (children : list node).

(** [for tag in soup(names): tag.decompose()]: every tag with one of the
    names is removed, with its descendants, at any depth. *)
Fixpoint decompose (names : list str) (n : node) : list node :=
  match n with
  | Tag name children =>
    if bool_decide (name ∈ names) then []
    else [Tag name (flat_map (decompose names) children)]
  | _ => [n]
  end.

Definition decompose_all (names : list str) (soup : list node) : list node :=
  flat_map (decompose names) soup.

(** The strings of a tree in document order. *)
Fixpoint all_strings (n : node) : list str :=
  match n with
  | NavigableString s => [s]
  | Comment _ => []
  | Tag _ children => flat_map all_strings children
  end.

(** The markup parser: [BeautifulSoup(html_content, "html.parser")]. *)
Class Parser := {
  html_parser : str -> list node
}.

Section Cleaner.
Context {U : Unicode} {P : Parser}.

(** [soup.get_text(strip=True, separator=sep)]: every string is stripped,
    the empty ones are skipped, the rest joined. *)
Definition get_text_strip (sep : str) (soup : list node) : str :=
  join sep (filter (λ s, truthy s = true)
                   (map strip (flat_map all_strings soup))).

Definition ad_keywords : list str := Eval vm_compute in
  [ py "ad:"; py "hgame:"; py "本站发布页"; py "请勿使用非浏览器访问本站";
    py "www."; py "http"; py ".com" ].

Definition removed_tags : list str := Eval vm_compute in
  [ py "script"; py "style"; py "ins"; py "noscript" ].

Definition link_tag : str := Eval vm_compute in py "a".

(** [any(keyword in line.lower() for keyword in ad_keywords)] *)
Definition has_ad_keyword (line : str) : bool :=
  existsb (λ keyword, contains keyword (lower line)) ad_keywords.

(** One turn of the filtering loop over [lines]. *)
Definition filter_line (cleaned_lines : list str) (line : str) : list str :=
  if has_ad_keyword line then cleaned_lines
  else if truthy (strip line) && negb (re_match_punct line)
       then cleaned_lines ++ [strip line]
       else cleaned_lines.

Definition clean_text (html_content : str) : str :=
  let soup := html_parser html_content in
  let soup := decompose_all removed_tags soup in
  let soup := decompose_all [link_tag] soup in
  let text := get_text_strip [NL] soup in
  let lines := split NL text in
  let cleaned_lines := fold_left filter_line lines [] in
  join NL2 (filter (λ line, truthy line = true) cleaned_lines).
End Cleaner.

(** An ASCII table, for running the cleaner on ASCII text. *)
Definition ascii_isspace (c : char) : bool :=
  (c =? 32) || ((9 <=? c) && (c <=? 13)) || ((28 <=? c) && (c <=? 31)).

Definition ascii_isalnum (c : char) : bool :=
  ((48 <=? c) && (c <=? 57)) || ((65 <=? c) && (c <=? 90))
  || ((97 <=? c) && (c <=? 122)).

Definition ascii_lower_char (c : char) : char :=
  if (65 <=? c) && (c <=? 90) then c + 32 else c.

Definition ascii_unicode : Unicode :=
  {| isspace := ascii_isspace; isalnum := ascii_isalnum;
     lower := map ascii_lower_char |}.

(** ** The browser collaborator and the effects of the program

    Every call into selenium either returns or raises, and may change the
    world outside the program (the browser, the network, the clock).
    [exn] are the [Exception] instances the collaborators raise.  Chrome's
    [quit] swallows its own failures and is modelled as a plain change of
    the world.  Element lookups are always [By.CSS_SELECTOR]. *)
Record ChromeOptions := {
  arguments : list str;
  experimental_options : list (str * list (str * Z))
}.

Class Browser := {
  exn : Type;
  exn_str : exn -> str;
  W : Type;
  driver : Type;
  element : Type;
  webdriver_Chrome : ChromeOptions -> W -> (exn + driver) * W;
  driver_get : driver -> str -> W -> (exn + ()) * W;
  driver_find_elements : driver -> str -> W -> (exn + list element) * W;
  driver_find_element : driver -> str -> W -> (exn + element) * W;
  element_text : element -> W -> (exn + str) * W;
  element_get_attribute : element -> str -> W -> (exn + str) * W;
  wait_until_present : driver -> Z -> str -> W -> (exn + ()) * W;
  driver_quit : driver -> W -> W;
  time_sleep : Z -> W -> (exn + ()) * W
}.

(** One result per URL: the dict [scrape_text] returns, with the keys
    ["selector"] and ["error"] present or absent. *)
Record ScrapeResult := {
  url : str;
  content : str;
  selector : option str;
  error : option str
}.

(** What the program can change: the world behind the driver, the lines
    printed so far, and the files written. *)
Record State (W : Type) := {
  world : W;
  stdout : list str;
  files : gmap str str
}.
Arguments world {W} _.
Arguments stdout {W} _.
Arguments files {W} _.

(** The file system behind the output file: [open(path, mode,
    encoding="utf-8")] and [file.write(text)] either return or raise, with
    the exceptions of the program ([append] stands for mode ["a"]).  A
    write that raises says how many characters of the text had reached the
    file. *)
Class FileSystem (B : Browser) := {
  open_file : str -> bool -> @W B -> (@exn B + ()) * @W B;
  file_write : str -> str -> @W B -> (@exn B * nat + ()) * @W B
}.

Section Program.
Context {U : Unicode} {P : Parser} {B : Browser} {F : FileSystem B}.

(** A computation returns a value ([inr]) or raises ([inl]). *)
Definition M (A : Type) : Type := State W -> (exn + A) * State W.

Definition ret {A} (a : A) : M A := λ s, (inr a, s).

Definition bind {A C} (m : M A) (k : A -> M C) : M C :=
  λ s, match m s with
       | (inr a, s') => k a s'
       | (inl e, s') => (inl e, s')
       end.

(** [try: m  except ... as e: handler e] *)
Definition try_except {A} (m : M A) (handler : exn -> M A) : M A :=
  λ s, match m s with
       | (inl e, s') => handler e s'
       | (inr a, s') => (inr a, s')
       end.

(** [try: m  finally: cleanup] *)
Definition finally {A} (m : M A) (cleanup : State W -> State W) : M A :=
  λ s, let '(r, s') := m s in (r, cleanup s').

Definition on_world (f : W -> W) (s : State W) : State W :=
  {| world := f (world s); stdout := stdout s; files := files s |}.

(** A call into the collaborator. *)
Definition call {A} (op : W -> (exn + A) * W) : M A :=
  λ s, let '(r, w) := op (world s) in (r, on_world (λ _, w) s).

Definition print (line : str) : M () :=
  λ s, (inr (), {| world := world s; stdout := stdout s ++ [line];
                   files := files s |}).

Notation "x <- m ;; k" := (bind m (λ x, k))
  (at level 100, m at next level, right associativity).
Notation "m ;; k" := (bind m (λ _, k))
  (at level 100, right associativity).

Definition on_files (f : gmap str str -> gmap str str) (s : State W)
    : State W :=
  {| world := world s; stdout := stdout s; files := f (files s) |}.

(** [with open(path, mode, encoding="utf-8") as file: file.write(text)],
    mode ["a"] or ["w"], outside any [try].  When [open] raises, no file
    has changed.  When it returns, the file exists: empty in mode ["w"],
    with its old content in mode ["a"].  When [file.write] returns, the
    text stands after that; when it raises, the part of the text written
    so far does. *)
Definition write_file (path : str) (append : bool) (text : str) : M () :=
  call (open_file path append);;
  (λ s, (inr (), on_files
                   (λ fs, <[path := if append then default [] (fs !! path)
                                    else []]> fs) s));;
  (λ s, match file_write path text (world s) with
        | (inr (), w) =>
          (inr (),
           {| world := w; stdout := stdout s;
              files := <[path := default [] (files s !! path) ++ text]>
                         (files s) |})
        | (inl (e, n), w) =>
          (inl e,
           {| world := w; stdout := stdout s;
              files := <[path := default [] (files s !! path)
                                 ++ take n text]> (files s) |})
        end).

Definition when (b : bool) (m : M ()) : M () := if b then m else ret ().

(** *** setup_driver *)
Definition chrome_options (headless : bool) : ChromeOptions :=
  {| arguments :=
       [py "--disable-gpu"; py "--no-sandbox"; py "--log-level=3"]
       ++ (if headless then [py "--headless=new"] else []);
     experimental_options :=
       [(py "prefs",
         [(py "profile.default_content_setting_values.cookies", 1%Z)])] |}.

Definition setup_driver (headless : bool) : M driver :=
  call (webdriver_Chrome (chrome_options headless)).

(** *** detect_content_selector *)
Definition potential_selectors : list str := Eval vm_compute in
  [ py "div#content"; py "div#contenta"; py "div.novelcontent";
    py "div.read-content"; py "div.article-content" ].

Definition body_selector : str := Eval vm_compute in py "body".

(** The body of the [try] for one candidate: [Some selector] when the
    function returns from there, [None] when the loop goes on. *)
Definition probe (driver : driver) (selector : str) : M (option str) :=
  elements <- call (driver_find_elements driver selector);;
  match elements with
  | [] => ret None
  | first :: _ =>
    text <- call (element_text first);;
    if (500 <? length text)%nat
    then print (py "检测到内容选择器: " ++ selector);; ret (Some selector)
    else ret None
  end.

Fixpoint detect_loop (driver : driver) (selectors : list str) : M str :=
  match selectors with
  | [] =>
    print (py "未检测到合适的内容选择器，使用默认选择器");;
    ret body_selector
  | selector :: rest =>
    found <- try_except (probe driver selector) (λ _, ret None);;
    match found with
    | Some selector => ret selector
    | None => detect_loop driver rest
    end
  end.

Definition detect_content_selector (driver : driver) : M str :=
  detect_loop driver potential_selectors.

(** *** scrape_text *)

(** [not selector] is true for [None] and for the empty string. *)
Definition selector_given (selector : option str) : bool :=
  match selector with
  | Some s => truthy s
  | None => false
  end.

(** The body of the [try] block. *)
Definition scrape_body (driver : driver) (url : str) (selector : option str)
    (manual_verify_time : Z) (headless : bool) : M ScrapeResult :=
  call (driver_get driver url);;
  print (py "正在访问: " ++ url);;
  when (negb headless)
    (print (py "请在 " ++ str_of_Z manual_verify_time
            ++ py " 秒内完成安全验证（如果有）...");;
     call (time_sleep manual_verify_time));;
  call (time_sleep 3);;
  selector <- match selector with
              | Some s => if truthy s then ret s
                          else detect_content_selector driver
              | None => detect_content_selector driver
              end;;
  try_except
    (call (wait_until_present driver 10 selector))
    (λ _, print (py "内容区域未找到，使用选择器: " ++ selector));;
  content_element <- call (driver_find_element driver selector);;
  content_html <- call (element_get_attribute content_element (py "innerHTML"));;
  let cleaned_text := clean_text content_html in
  when (length cleaned_text <? 200)%nat
    (print (py "警告: 从 " ++ url ++ py " 抓取的内容可能不完整"));;
  ret {| url := url; content := cleaned_text;
         selector := Some selector; error := None |}.

(** The [except Exception as e] handler. *)
Definition scrape_handler (url : str) (e : exn) : M ScrapeResult :=
  print (py "抓取 " ++ url ++ py " 时发生错误: " ++ exn_str e);;
  ret {| url := url; content := []; selector := None;
         error := Some (exn_str e) |}.

Definition scrape_text (url : str) (selector : option str)
    (manual_verify_time : Z) (headless : bool) : M ScrapeResult :=
  driver <- setup_driver headless;;
  finally
    (try_except (scrape_body driver url selector manual_verify_time headless)
                (scrape_handler url))
    (on_world (driver_quit driver)).
(** *** batch_scrape *)

(** [str(n)] for a count. *)
Definition str_of_nat (n : nat) : str := str_of_N (N.of_nat n).

(** The [for i, url in enumerate(urls, 1)] loop; [total] is [len(urls)]. *)
Fixpoint batch_loop (total : nat) (verify_time : Z) (headless : bool)
    (urls : list str) (i : nat) (selector : option str)
    (all_content : list ScrapeResult) : M (list ScrapeResult) :=
  match urls with
  | [] => ret all_content
  | url :: rest =>
    print (NL :: py "===== 开始抓取第 " ++ str_of_nat i ++ py "/"
           ++ str_of_nat total ++ py " 个URL =====");;
    result <- scrape_text url selector verify_time headless;;
    let all_content := all_content ++ [result] in
    let selector :=
      if (i =? 1)%nat && negb (selector_given selector)
      then match result with
           | {| selector := Some found |} => Some found
           | _ => selector
           end
      else selector in
    batch_loop total verify_time headless rest (S i) selector all_content
  end.

(** [f"来源: {result['url']}\n\n{result['content']}"] *)
Definition labelled (result : ScrapeResult) : str :=
  py "来源: " ++ result.(url) ++ NL2 ++ result.(content).

(** The results with a non-empty content. *)
Definition saved (all_content : list ScrapeResult) : list ScrapeResult :=
  filter (λ result, truthy result.(content) = true) all_content.

(** ["\n\n" + "=" * 50 + "\n\n".join([...])] *)
Definition combined_text (all_content : list ScrapeResult) : str :=
  (NL2 ++ replicate 50 61) ++ join NL2 (map labelled (saved all_content)).

Definition status (result : ScrapeResult) : str :=
  if truthy result.(content) then py "成功"
  else py "失败: " ++ default (py "未知原因") result.(error).

Definition status_line (result : ScrapeResult) : str :=
  py "- " ++ result.(url) ++ py ": " ++ status result.

Fixpoint print_all (lines : list str) : M () :=
  match lines with
  | [] => ret ()
  | line :: rest => print line;; print_all rest
  end.

Definition batch_scrape (urls : list str) (output_file : str)
    (selector : option str) (verify_time : Z) (headless append : bool)
    : M () :=
  all_content <- batch_loop (length urls) verify_time headless urls 1
                            selector [];;
  write_file output_file append (combined_text all_content);;
  print (NL :: py "===== 批量抓取完成 =====");;
  print (py "已将 " ++ str_of_nat (length (saved all_content))
         ++ py " 个页面的内容保存到: " ++ output_file);;
  print_all (map status_line all_content).
End Program.

Notation "x <- m ;; k" := (bind m (λ x, k))
  (at level 100, m at next level, right associativity).
Notation "m ;; k" := (bind m (λ _, k))
  (at level 100, right associativity).

(** ** A scripted browser

    A browser over a fixed site, to run the program on concrete pages: the
    world is the address of the loaded page, an element is the pair of its
    text and its inner markup, exceptions are their messages. *)
Record Site := {
  chrome_starts : bool;
  reachable : str -> bool;
  page : str -> str -> list (str * str)
}.

Definition scripted (site : Site) : Browser :=
  {| exn := str;
     exn_str := λ e, e;
     W := str;
     driver := ();
     element := str * str;
     webdriver_Chrome := λ _ w,
       if site.(chrome_starts) then (inr (), w)
       else (inl (py "session not created"), w);
     driver_get := λ _ url w,
       if site.(reachable) url then (inr (), url)
       else (inl (py "net::ERR_NAME_NOT_RESOLVED"), w);
     driver_find_elements := λ _ sel w, (inr (site.(page) w sel), w);
     driver_find_element := λ _ sel w,
       match site.(page) w sel with
       | e :: _ => (inr e, w)
       | [] => (inl (py "no such element"), w)
       end;
     element_text := λ e w, (inr e.1, w);
     element_get_attribute := λ e _ w, (inr e.2, w);
     wait_until_present := λ _ _ sel w,
       match site.(page) w sel with
       | _ :: _ => (inr (), w)
       | [] => (inl (py "timeout"), w)
       end;
     driver_quit := λ _ w, w;
     time_sleep := λ secs w,
       if (secs <? 0)%Z then (inl (py "sleep length must be non-negative"), w)
       else (inr (), w) |}.

(** A parser for fragments without markup: the fragment is one text node. *)
Definition text_parser : Parser :=
  {| html_parser := λ html,
       match html with
       | [] => []
       | _ => [NavigableString html]
       end |}.

(** ** Reference definitions

    What the specification says in its own words, to compare the program
    with. *)
Section Reference.
Context {U : Unicode} {P : Parser} {B : Browser}.

(** The record the scraper hands back for an exception. *)
Definition error_result (u : str) (e : exn) : ScrapeResult :=
  {| url := u; content := []; selector := None;
     error := Some (exn_str e) |}.

(** The state the exception handler and the release of the session leave
    behind. *)
Definition after_failure (d : driver) (u : str) (e : exn) (s : State W)
    : State W :=
  {| world := driver_quit d (world s);
     stdout := stdout s ++ [py "抓取 " ++ u ++ py " 时发生错误: " ++ exn_str e];
     files := files s |}.

(** The progress line of the [i]-th URL out of [total]. *)
Definition progress_line (i total : nat) : str :=
  NL :: py "===== 开始抓取第 " ++ str_of_nat i ++ py "/"
  ++ str_of_nat total ++ py " 个URL =====".

(** Scraping every URL of a list with one and the same selector. *)
Fixpoint scrape_each (total : nat) (t : Z) (h : bool)
    (sel : option str) (urls : list str) (i : nat) : M (list ScrapeResult) :=
  match urls with
  | [] => ret []
  | u :: rest =>
    print (progress_line i total);;
    r <- scrape_text u sel t h;;
    rs <- scrape_each total t h sel rest (S i);;
    ret (r :: rs)
  end.

(** Whether a candidate qualifies on the page as it is in world [w]: its
    lookup returns at least one element and the text of the first one is
    longer than the threshold; a lookup that raises does not qualify.
    The second component is the world after the lookup. *)
Definition qualifies (d : driver) (candidate : str) (w : W) : bool * W :=
  match driver_find_elements d candidate w with
  | (inr (first :: _), w1) =>
    match element_text first w1 with
    | (inr text, w2) => ((500 <? length text)%nat, w2)
    | (inl _, w2) => (false, w2)
    end
  | (inr [], w1) => (false, w1)
  | (inl _, w1) => (false, w1)
  end.

(** The world after the candidates of [skipped] have been looked up in
    turn, when none of them qualifies. *)
Fixpoint all_skipped (d : driver) (skipped : list str) (w : W) : option W :=
  match skipped with
  | [] => Some w
  | candidate :: rest =>
    let '(q, w') := qualifies d candidate w in
    if q then None else all_skipped d rest w'
  end.

(** The lines of a text: what stands between two newlines.  The empty
    strings that a blank line or the paragraph separator leaves are not
    lines of text. *)
Definition lines_of (text : str) : list str :=
  filter (λ line, truthy line = true) (split NL text).

(** A string that [strip] leaves as it is: no white space at either
    end. *)
Definition stripped (s : str) : Prop :=
  lstrip s = s ∧ lstrip (rev s) = rev s.

(** The text [clean_text] extracts from a fragment, and the lines it keeps
    of a text. *)
Definition page_text (html_content : str) : str :=
  get_text_strip [NL]
    (decompose_all [link_tag]
       (decompose_all removed_tags (html_parser html_content))).

(** The strings left in a soup once the two removals are done. *)
Definition soup_strings (soup : list node) : list str :=
  flat_map all_strings
    (decompose_all [link_tag] (decompose_all removed_tags soup)).

Definition kept_lines (text : str) : list str :=
  filter (λ line, truthy line = true)
         (fold_left filter_line (split NL text) []).

(** A text node is noise when, stripped as [get_text] strips it, it is
    empty or each of its lines holds an advertising keyword. *)
Definition noise_text (s : str) : Prop :=
  Forall (λ line, line = [] ∨ has_ad_keyword line = true)
         (split NL (strip s)).

(** A node is noise when it is a script, style, inline-ad or no-script
    tag, a hyperlink, a comment, a noise text, or a tag that holds only
    noise. *)
Fixpoint noise (n : node) : Prop :=
  match n with
  | NavigableString s => noise_text s
  | Comment _ => True
  | Tag name children =>
    name ∈ removed_tags ∨ name = link_tag
    ∨ fold_right (λ child rest, noise child ∧ rest) True children
  end.

(** The parser reads a text back as plain text: one text node with the
    same characters, no markup and no character reference found in it. *)
Definition reads_as_text (text : str) : Prop :=
  html_parser text = match text with
                     | [] => []
                     | _ => [NavigableString text]
                     end.

(** The artifact body in the words of the specification: the label,
    a blank line and the content of every successful result, consecutive
    results separated by the fixed-width divider line. *)
Definition divider : str := NL2 ++ replicate 50 61 ++ NL2.

Definition combined_text_spec (all_content : list ScrapeResult) : str :=
  join divider (map labelled (saved all_content)).

(** The state the report of [batch_scrape] leaves behind, [w] being the
    world after the output file was written. *)
Definition after_report (out : str) (append : bool)
    (all_content : list ScrapeResult) (w : W) (s : State W) : State W :=
  {| world := w;
     stdout := stdout s
       ++ [ NL :: py "===== 批量抓取完成 =====";
            py "已将 " ++ str_of_nat (length (saved all_content))
            ++ py " 个页面的内容保存到: " ++ out ]
       ++ map status_line all_content;
     files := <[out := (if append then default [] (files s !! out) else [])
                       ++ combined_text all_content]> (files s) |}.
End Reference.

(** A browser that differs from [B] in what the two lookups of the detector
    answer. *)
Definition with_lookups (B : Browser)
    (find_elements : @driver B -> str -> @W B -> (@exn B + list (@element B)) * @W B)
    (text : @element B -> @W B -> (@exn B + str) * @W B) : Browser :=
  {| exn := @exn B; exn_str := @exn_str B; W := @W B; driver := @driver B;
     element := @element B;
     webdriver_Chrome := @webdriver_Chrome B;
     driver_get := @driver_get B;
     driver_find_elements := find_elements;
     driver_find_element := @driver_find_element B;
     element_text := text;
     element_get_attribute := @element_get_attribute B;
     wait_until_present := @wait_until_present B;
     driver_quit := @driver_quit B;
     time_sleep := @time_sleep B |}.

(** A parser for fragments without tags: one text node, in which the
    character reference [&amp;] stands for [&], as html.parser reads it. *)
Fixpoint decode_amp (s : str) : str :=
  match s with
  | 38 :: 97 :: 109 :: 112 :: 59 :: rest => 38 :: decode_amp rest
  | c :: rest => c :: decode_amp rest
  | [] => []
  end.

Definition charref_parser : Parser :=
  {| html_parser := λ html,
       match decode_amp html with
       | [] => []
       | text => [NavigableString text]
       end |}.

(** A fragment that holds a script, a style sheet, a hyperlink and two
    advertising lines, and the tree html.parser builds from it; other
    fragments are read as plain text. *)
Definition noise_fragment : str := Eval vm_compute in
  py "<script>var x = 1;</script>" ++ [NL]
  ++ py "<style>p { color: red }</style><a href=/next>next chapter</a>"
  ++ py "AD: buy now" ++ [NL] ++ py "visit WWW.example.COM".

Definition noise_soup : list node := Eval vm_compute in
  [ Tag (py "script") [NavigableString (py "var x = 1;")];
    NavigableString [NL];
    Tag (py "style") [NavigableString (py "p { color: red }")];
    Tag (py "a") [NavigableString (py "next chapter")];
    NavigableString (py "AD: buy now" ++ [NL] ++ py "visit WWW.example.COM") ].

Definition noise_page_parser : Parser :=
  {| html_parser := λ html,
       if bool_decide (html = noise_fragment) then noise_soup
       else @html_parser text_parser html |}.

(** ** A site to run the program on

    Four pages: [u1] and [u3] keep their chapter in [div#content], [u2]
    cannot be reached, and the body of [u4] holds nothing but an
    advertisement. *)
Definition novel_site : Site :=
  {| chrome_starts := true;
     reachable := λ u, negb (bool_decide (u = py "u2"));
     page := λ w sel,
       if bool_decide (sel = py "div#content") then
         if bool_decide (w ∈ [py "u1"; py "u3"])
         then [(replicate 501 120, py "chapter of " ++ w)]
         else []
       else if bool_decide (sel = py "body") then
         [(w, if bool_decide (w = py "u4") then py "www.ads.example"
              else py "page of " ++ w)]
       else [] |}.


Definition novel_browser : Browser := scripted novel_site.

(** The file system of the scripted machine: a file cannot be opened under
    an empty name or in a directory (there is none); a file that is open
    takes every text. *)
Definition scripted_open_file (path : str) (append : bool) (w : str)
    : (str + ()) * str :=
  if bool_decide (path = []) || bool_decide (47 ∈ path)
  then (inl (py "[Errno 2] No such file or directory: '" ++ path ++ py "'"),
        w)
  else (inr (), w).

Definition scripted_file_write (path text : str) (w : str)
    : (str * nat + ()) * str :=
  (inr (), w).

Definition scripted_files (site : Site) : FileSystem (scripted site) :=
  @Build_FileSystem (scripted site) scripted_open_file scripted_file_write.

Definition novel_files : FileSystem novel_browser := scripted_files novel_site.




(** The program before anything is loaded, printed or written. *)
Definition init : State str :=
  {| world := []; stdout := []; files := ∅ |}.

(** ** The command line entry and further reference definitions *)

(** The names of the tags of a tree, at any depth. *)
Fixpoint tag_names (n : node) : list str :=
  match n with
  | Tag name children => name :: flat_map tag_names children
  | _ => []
  end.

Section Reference2.
Context {U : Unicode} {P : Parser} {B : Browser}.

(** A line of the extracted text that the filtering loop lets through. *)
Definition survives (line : str) : bool :=
  negb (has_ad_keyword line) && truthy (strip line)
  && negb (re_match_punct line).

(** The program went from [s] to [s'] without touching a file and without
    taking back a printed line. *)
Definition grows (s s' : State W) : Prop :=
  files s' = files s ∧ ∃ out, stdout s' = stdout s ++ out.

(** A computation that, from every state, only grows it. *)
Definition frames {A} (m : M A) : Prop := ∀ s, grows s (m s).2.

(** Looking a page up does not change it. *)
Definition lookups_read_only : Prop :=
  (∀ d sel w, (driver_find_elements d sel w).2 = w)
  ∧ (∀ el w, (element_text el w).2 = w).

End Reference2.

(** The parsed command line: [--url] and [--url-file] exclude each other
    and one of them is required. *)
Module Args.
Record t := {
  url : option str;
  url_file : option str;
  selector : option str;
  output : str;
  verify_time : Z;
  headless : bool;
  append : bool
}.
End Args.

(** Reading the URL file: [open(path, "r")], [json.load] and [len] either
    give the list of URLs or raise; the file read is part of the world. *)
Class UrlFile (B : Browser) := {
  load_urls : option str -> @W B -> (@exn B + list str) * @W B
}.

Section Main.
Context {U : Unicode} {P : Parser} {B : Browser} {F : FileSystem B}
        {L : UrlFile B}.

(** The [else] branch of the URL input: [None] stands for the [return]
    of the handler. *)
Definition load_url_file (args : Args.t) : M (option (list str)) :=
  try_except
    (urls <- call (load_urls args.(Args.url_file));;
     print (py "从文件加载了 " ++ str_of_nat (length urls) ++ py " 个URL");;
     ret (Some urls))
    (λ e, print (py "无法加载URL文件: " ++ exn_str e);; ret None).


Definition main (args : Args.t) : M () :=
  urls <- match args.(Args.url) with
          | Some u => if truthy u then ret (Some [u])
                      else load_url_file args
          | None => load_url_file args
          end;;
  match urls with
  | None => ret ()
  | Some urls =>
    batch_scrape urls args.(Args.output) args.(Args.selector)
                 args.(Args.verify_time) args.(Args.headless)
                 args.(Args.append)
  end.
End Main.

(** The URL file of the scripted site: [urls.json] lists three of its
    pages, no other file exists. *)
Definition scripted_load_urls (path : option str) (w : str)
    : (str + list str) * str :=
  match path with
  | Some p =>
    if bool_decide (p = py "urls.json")
    then (inr [py "u1"; py "u2"; py "u3"], w)
    else (inl (py "[Errno 2] No such file or directory"), w)
  | None =>
    (inl (py "expected str, bytes or os.PathLike object, not NoneType"), w)
  end.

Definition scripted_url_file (site : Site) : UrlFile (scripted site) :=
  @Build_UrlFile (scripted site) scripted_load_urls.

Definition novel_url_file : UrlFile novel_browser :=
  scripted_url_file novel_site.

(** Results of the scripted site, and two command lines. *)
Definition chapter_u1 : ScrapeResult :=
  {| url := py "u1"; content := py "chapter of u1";
     selector := Some (py "div#content"); error := None |}.



Definition failed_u2 : ScrapeResult :=
  {| url := py "u2"; content := []; selector := None;
     error := Some (py "net::ERR_NAME_NOT_RESOLVED") |}.


Definition args_missing_file : Args.t :=
  {| Args.url := None; Args.url_file := Some (py "missing.json");
     Args.selector := None; Args.output := py "scraped_text.txt";
     Args.verify_time := 30; Args.headless := true; Args.append := false |}.

(** ** Properties of the text cleaner *)

Section StringFacts.
Context {U : Unicode}.

Lemma split_nonempty sep s : split sep s ≠ [].
Proof.
  destruct s as [|c s]; simpl; [done |].
  destruct (c =? sep); [done |]. by destruct (split sep s).
Qed.

Lemma split_app sep a b :
  split sep (a ++ sep :: b) = split sep a ++ split sep b.
Proof.
  induction a as [|c a IH]; simpl.
  - by rewrite N.eqb_refl.
  - rewrite IH. destruct (c =? sep); [done |].
    pose proof (split_nonempty sep a). by destruct (split sep a).
Qed.

Lemma split_no_sep sep s : sep ∉ s -> split sep s = [s].
Proof.
  induction s as [|c s IH]; intros Hsep; simpl; [done |].
  apply not_elem_of_cons in Hsep as [Hc Hs].
  destruct (N.eqb_spec c sep); [congruence |]. by rewrite IH.
Qed.

Lemma split_elem_no_sep sep s line : line ∈ split sep s -> sep ∉ line.
Proof.
  revert line. induction s as [|c s IH]; simpl; intros line.
  - intros ->%list_elem_of_singleton. apply not_elem_of_nil.
  - destruct (N.eqb_spec c sep) as [-> | Hc].
    + intros [-> | Hin]%elem_of_cons; [apply not_elem_of_nil | by apply IH].
    + pose proof (split_nonempty sep s).
      destruct (split sep s) as [|l ls]; [done |].
      intros [-> | Hin]%elem_of_cons.
      * apply not_elem_of_cons. split; [congruence |].
        apply IH. by left.
      * apply IH. by right.
Qed.

(** The lines of newline-joined texts are the lines of the texts. *)
Lemma split_join_lines (texts : list str) :
  texts ≠ [] ->
  split NL (join [NL] texts) = flat_map (split NL) texts.
Proof.
  induction texts as [|t [|t' rest] IH]; intros Hne; [done | |].
  - simpl. by rewrite app_nil_r.
  - change (join [NL] (t :: t' :: rest))
      with (t ++ NL :: join [NL] (t' :: rest)).
    rewrite split_app, IH by done. reflexivity.
Qed.

(** Paragraphs joined by blank lines are read back as they are. *)
Lemma lines_of_join (paragraphs : list str) :
  Forall (λ l, truthy l = true ∧ NL ∉ l) paragraphs ->
  lines_of (join NL2 paragraphs) = paragraphs.
Proof.
  unfold lines_of.
  induction paragraphs as [|l [|l' rest] IH]; intros Hall; [done | |].
  - apply Forall_cons in Hall as [[Hl Hnl] _]. simpl.
    rewrite split_no_sep by done. by rewrite filter_cons_True.
  - apply Forall_cons in Hall as [[Hl Hnl] Hall].
    change (join NL2 (l :: l' :: rest))
      with (l ++ NL :: NL :: join NL2 (l' :: rest)).
    rewrite split_app, split_no_sep by done.
    change (NL :: join NL2 (l' :: rest))
      with ([] ++ NL :: join NL2 (l' :: rest)).
    rewrite split_app. simpl ([l] ++ _).
    rewrite filter_cons_True, filter_cons_False by done.
    f_equal. exact (IH Hall).
Qed.
(** *** strip *)

Lemma lstrip_head s c r : lstrip s = c :: r -> isspace c = false.
Proof.
  induction s as [|a s IH]; simpl; [done |].
  destruct (isspace a) eqn:Ha; [done |]. by intros [= -> ->].
Qed.

Lemma lstrip_suffix s : ∃ pre, s = pre ++ lstrip s.
Proof.
  induction s as [|a s [pre IH]]; [by exists [] |]. simpl.
  destruct (isspace a); [| by exists []].
  exists (a :: pre). simpl. by rewrite <- IH.
Qed.

Lemma lstrip_idemp s : lstrip (lstrip s) = lstrip s.
Proof.
  destruct (lstrip s) as [|c r] eqn:Hs; [done |].
  apply lstrip_head in Hs. simpl. by rewrite Hs.
Qed.

Lemma rstrip_prefix s : ∃ suf, s = rstrip s ++ suf.
Proof.
  destruct (lstrip_suffix (rev s)) as [pre Hpre]. exists (rev pre).
  unfold rstrip. by rewrite <- rev_app_distr, <- Hpre, rev_involutive.
Qed.

Lemma strip_infix s : ∃ pre suf, s = pre ++ strip s ++ suf.
Proof.
  destruct (lstrip_suffix s) as [pre Hpre].
  destruct (rstrip_prefix (lstrip s)) as [suf Hsuf].
  exists pre, suf. unfold strip. by rewrite <- Hsuf.
Qed.

Lemma strip_elem c s : c ∈ strip s -> c ∈ s.
Proof.
  destruct (strip_infix s) as (pre & suf & Hs). intros Hc.
  rewrite Hs, !elem_of_app. auto.
Qed.

Lemma strip_stripped s : stripped (strip s).
Proof.
  split.
  - destruct (strip s) as [|c r] eqn:Hs; [done |].
    destruct (rstrip_prefix (lstrip s)) as [suf Hsuf].
    fold (strip s) in Hsuf. rewrite Hs in Hsuf.
    apply lstrip_head in Hsuf. simpl. by rewrite Hsuf.
  - unfold strip, rstrip. rewrite rev_involutive. apply lstrip_idemp.
Qed.

Lemma stripped_strip s : stripped s -> strip s = s.
Proof.
  intros [Hl Hr]. unfold strip, rstrip.
  by rewrite Hl, Hr, rev_involutive.
Qed.

Lemma stripped_join sep (texts : list str) :
  Forall (λ l, truthy l = true ∧ stripped l) texts ->
  stripped (join sep texts).
Proof.
  induction texts as [|l [|l' rest] IH]; intros Hall; [done | |].
  - by apply Forall_cons in Hall as [[_ Hl] _].
  - apply Forall_cons in Hall as [[Hne [Hl Hr]] Hall].
    change (join sep (l :: l' :: rest))
      with (l ++ sep ++ join sep (l' :: rest)).
    destruct (IH Hall) as [_ IHr]. split.
    + destruct l as [|c l]; [done |].
      apply lstrip_head in Hl as Hc. simpl. by rewrite Hc.
    + rewrite !rev_app_distr.
      destruct (rev (join sep (l' :: rest))) as [|c z] eqn:Hz.
      * exfalso. apply (f_equal (@rev char)) in Hz.
        rewrite rev_involutive in Hz. simpl in Hz.
        apply Forall_cons in Hall as [[Hne' _] _].
        destruct l' as [|c' l']; [done |]. by destruct rest.
      * apply lstrip_head in IHr as Hc. simpl. by rewrite Hc.
Qed.
End StringFacts.

Lemma node_ind' (Q : node -> Prop) :
  (∀ s, Q (NavigableString s)) ->
  (∀ s, Q (Comment s)) ->
  (∀ name children, Forall Q children -> Q (Tag name children)) ->
  ∀ n, Q n.
Proof.
  intros Hs Hc Ht. fix IH 1. intros [s|s|name children]; [done | done |].
  apply Ht. induction children as [|c rest IHrest]; constructor; auto.
Qed.

Section CleanerProperties.
Context {U : Unicode} {P : Parser}.

Lemma clean_text_kept html :
  clean_text html = join NL2 (kept_lines (page_text html)).
Proof. reflexivity. Qed.

Lemma page_text_strings html :
  page_text html
  = join [NL] (filter (λ s, truthy s = true)
                      (map strip (soup_strings (html_parser html)))).
Proof. reflexivity. Qed.

(** *** The filtering loop *)

Lemma filter_line_elem acc line k :
  k ∈ filter_line acc line ->
  k ∈ acc ∨ (k = strip line ∧ truthy k = true).
Proof.
  unfold filter_line. destruct (has_ad_keyword line); [auto |].
  destruct (truthy (strip line)) eqn:Ht; simpl; [| auto].
  destruct (re_match_punct line); simpl; [auto |].
  rewrite elem_of_app, list_elem_of_singleton. intros [Hk | ->]; auto.
Qed.

Lemma fold_filter_line_elem lines acc k :
  k ∈ fold_left filter_line lines acc ->
  k ∈ acc ∨ ∃ line, line ∈ lines ∧ k = strip line ∧ truthy k = true.
Proof.
  revert acc. induction lines as [|line lines IH]; simpl; intros acc Hk;
    [auto |].
  apply IH in Hk as [Hk | (l & Hl & Hkl)].
  - apply filter_line_elem in Hk as [Hk | Hk]; [auto |].
    right. exists line. split; [left | done].
  - right. exists l. split; [by right | done].
Qed.

(** A kept line is a line of the text, stripped, and is not empty. *)
Lemma kept_lines_elem text k :
  k ∈ kept_lines text ->
  ∃ line, line ∈ split NL text ∧ k = strip line ∧ truthy k = true.
Proof.
  unfold kept_lines. intros [_ Hk]%list_elem_of_filter.
  apply fold_filter_line_elem in Hk as [Hk | Hk]; [| done].
  by apply elem_of_nil in Hk.
Qed.

Lemma kept_lines_paragraphs text :
  Forall (λ l, truthy l = true ∧ NL ∉ l) (kept_lines text).
Proof.
  apply Forall_forall. intros k (line & Hline & -> & Hk)%kept_lines_elem.
  split; [done |]. intros Hnl%strip_elem.
  by apply split_elem_no_sep in Hline.
Qed.

Lemma kept_lines_stripped text :
  Forall (λ l, truthy l = true ∧ stripped l) (kept_lines text).
Proof.
  apply Forall_forall. intros k (line & Hline & -> & Hk)%kept_lines_elem.
  split; [done | apply strip_stripped].
Qed.

(** The lines of a cleaned text are the lines the cleaner kept. *)
Lemma lines_of_clean_text html :
  lines_of (clean_text html) = kept_lines (page_text html).
Proof.
  rewrite clean_text_kept. apply lines_of_join, kept_lines_paragraphs.
Qed.

Lemma fold_filter_line_noise lines acc :
  Forall (λ line, line = [] ∨ has_ad_keyword line = true) lines ->
  fold_left filter_line lines acc = acc.
Proof.
  revert acc. induction lines as [|line lines IH]; intros acc Hall;
    [done |].
  apply Forall_cons in Hall as [Hline Hall]. simpl.
  rewrite IH by done. unfold filter_line.
  destruct Hline as [-> | ->]; [| done]. by destruct (has_ad_keyword []).
Qed.
(** *** Removal of tags *)

Lemma soup_strings_cons n soup :
  soup_strings (n :: soup) = soup_strings [n] ++ soup_strings soup.
Proof.
  unfold soup_strings, decompose_all. simpl.
  by rewrite app_nil_r, !flat_map_app.
Qed.

Lemma soup_strings_removed name children :
  name ∈ removed_tags ∨ name = link_tag ->
  soup_strings [Tag name children] = [].
Proof.
  intros Hname. unfold soup_strings, decompose_all. simpl.
  case_bool_decide; [done |]. simpl. case_bool_decide; [done |].
  destruct Hname as [? | ->]; [done |].
  exfalso. match goal with H : _ ∉ [_] |- _ => apply H end. by left.
Qed.

Lemma soup_strings_kept name children :
  name ∉ removed_tags -> name ≠ link_tag ->
  soup_strings [Tag name children] = soup_strings children.
Proof.
  intros Hname Hlink. unfold soup_strings, decompose_all. simpl.
  rewrite bool_decide_eq_false_2 by done. simpl.
  rewrite bool_decide_eq_false_2 by by rewrite list_elem_of_singleton.
  simpl. by rewrite !app_nil_r.
Qed.

Lemma noise_node_strings n :
  noise n -> Forall noise_text (soup_strings [n]).
Proof.
  induction n as [s | s | name children IH] using node_ind'; intros Hn.
  - by repeat constructor.
  - constructor.
  - destruct (decide (name ∈ removed_tags)) as [Hr | Hr];
      [rewrite soup_strings_removed by auto; constructor |].
    destruct (decide (name = link_tag)) as [Hl | Hl];
      [rewrite soup_strings_removed by auto; constructor |].
    rewrite soup_strings_kept by done.
    destruct Hn as [? | [? | Hn]]; [done | done |].
    induction IH as [|c rest Hc _ IHrest]; [constructor |].
    destruct Hn as [Hcn Hrest]. rewrite soup_strings_cons.
    apply Forall_app. auto.
Qed.

Lemma noise_soup_strings soup :
  Forall noise soup -> Forall noise_text (soup_strings soup).
Proof.
  induction 1 as [|n soup Hn _ IH]; [constructor |].
  rewrite soup_strings_cons. apply Forall_app. split; [| done].
  by apply noise_node_strings.
Qed.

Lemma noise_texts_lines (strings : list str) :
  Forall noise_text strings ->
  Forall (λ line, line = [] ∨ has_ad_keyword line = true)
         (flat_map (split NL)
            (filter (λ s, truthy s = true) (map strip strings))).
Proof.
  induction 1 as [|s strings Hs _ IH]; [constructor |]. simpl.
  rewrite filter_cons. case_decide; [| done]. simpl.
  apply Forall_app. split; done.
Qed.

(** C8: a fragment whose content is only script and style tags (and the
    other removed tags), hyperlinks, and text whose lines hold an
    advertising keyword is cleaned to the empty string, returned as a
    value. *)
Theorem clean_text_of_noise html :
  Forall noise (html_parser html) -> clean_text html = [].
Proof.
  intros Hnoise. rewrite clean_text_kept. unfold kept_lines.
  rewrite fold_filter_line_noise; [done |].
  rewrite page_text_strings.
  apply noise_soup_strings, noise_texts_lines in Hnoise.
  destruct (filter _ (map strip _)) as [|t texts] eqn:Htexts.
  - repeat constructor.
  - by rewrite split_join_lines.
Qed.

(** *** Cleaning again *)

Lemma clean_text_stripped html : stripped (clean_text html).
Proof. rewrite clean_text_kept. apply stripped_join, kept_lines_stripped. Qed.

Lemma page_text_plain text :
  reads_as_text text -> stripped text -> page_text text = text.
Proof.
  intros Hplain Hs. rewrite page_text_strings.
  unfold soup_strings, decompose_all. rewrite Hplain.
  destruct text as [|c text]; [done |]. simpl.
  rewrite (stripped_strip _ Hs). by rewrite filter_cons_True.
Qed.

(** C9 (amended): when the parser reads the cleaned text back as plain
    text, every line of the text cleaned twice is a line of the text
    cleaned once. *)
Theorem clean_text_twice_lines x :
  reads_as_text (clean_text x) ->
  lines_of (clean_text (clean_text x)) ⊆ lines_of (clean_text x).
Proof.
  intros Hplain. rewrite (lines_of_clean_text (clean_text x)).
  rewrite page_text_plain by (done || apply clean_text_stripped).
  intros k (line & Hline & -> & Hk)%kept_lines_elem.
  assert (line ∈ lines_of (clean_text x)) as Hin.
  { unfold lines_of. apply list_elem_of_filter. split; [| done].
    by destruct line. }
  rewrite stripped_strip; [done |].
  rewrite lines_of_clean_text in Hin.
  pose proof (kept_lines_stripped (page_text x)) as Hall.
  rewrite Forall_forall in Hall. by apply Hall.
Qed.
End CleanerProperties.

(** ** More properties of the text cleaner *)

Lemma flat_map_ext_Forall {A C} (f g : A -> list C) (l : list A) :
  Forall (λ x, f x = g x) l -> flat_map f l = flat_map g l.
Proof. induction 1 as [|x l Hx _ IH]; simpl; congruence. Qed.

Lemma flat_map_flat_map {A C D} (f : C -> list D) (g : A -> list C)
    (l : list A) :
  flat_map f (flat_map g l) = flat_map (λ x, flat_map f (g x)) l.
Proof.
  induction l as [|x l IH]; simpl; [done |]. by rewrite flat_map_app, IH.
Qed.

Lemma decompose_no_tag names n :
  Forall (λ name, name ∉ names) (flat_map tag_names (decompose names n)).
Proof.
  induction n as [s | s | name children IH] using node_ind'; simpl;
    [constructor | constructor |].
  case_bool_decide as Hname; simpl; [constructor |].
  rewrite app_nil_r. constructor; [done |].
  rewrite flat_map_flat_map.
  induction IH as [|c rest Hc _ IHrest]; simpl; [constructor |].
  apply Forall_app. done.
Qed.

(** X3: Once the tags named in [names] are decomposed, no tag of that name is
    left anywhere in the tree. *)
Theorem decompose_all_leaves_no_tag names soup :
  Forall (λ name, name ∉ names)
         (flat_map tag_names (decompose_all names soup)).
Proof.
  unfold decompose_all. rewrite flat_map_flat_map.
  induction soup as [|n soup IH]; simpl; [constructor |].
  apply Forall_app. split; [apply decompose_no_tag | done].
Qed.

Lemma decompose_twice names1 names2 n :
  flat_map (decompose names2) (decompose names1 n)
  = decompose (names1 ++ names2) n.
Proof.
  induction n as [s | s | name children IH] using node_ind'; simpl;
    [done | done |].
  destruct (decide (name ∈ names1)) as [H1 | H1].
  - rewrite (bool_decide_eq_true_2 (name ∈ names1)) by done.
    rewrite (bool_decide_eq_true_2 (name ∈ names1 ++ names2));
      [done | apply elem_of_app; auto].
  - rewrite (bool_decide_eq_false_2 (name ∈ names1)) by done. simpl.
    rewrite app_nil_r.
    destruct (decide (name ∈ names2)) as [H2 | H2].
    + rewrite (bool_decide_eq_true_2 (name ∈ names2)) by done.
      rewrite (bool_decide_eq_true_2 (name ∈ names1 ++ names2));
        [done | apply elem_of_app; auto].
    + rewrite (bool_decide_eq_false_2 (name ∈ names2)) by done.
      rewrite (bool_decide_eq_false_2 (name ∈ names1 ++ names2))
        by (rewrite elem_of_app; tauto).
      do 2 f_equal. rewrite flat_map_flat_map.
      by apply flat_map_ext_Forall.
Qed.

Lemma decompose_same_names names1 names2 n :
  (∀ name, name ∈ names1 ↔ name ∈ names2) ->
  decompose names1 n = decompose names2 n.
Proof.
  intros Hnames.
  induction n as [s | s | name children IH] using node_ind'; simpl;
    [done | done |].
  rewrite (bool_decide_ext _ _ (Hnames name)).
  case_bool_decide; [done |]. do 2 f_equal. by apply flat_map_ext_Forall.
Qed.

(** X4: Two removals in a row are one removal of both lists of names, so the
    order of the two removals of [clean_text] does not matter. *)
Theorem decompose_all_compose names1 names2 soup :
  decompose_all names2 (decompose_all names1 soup)
  = decompose_all (names1 ++ names2) soup
  ∧ decompose_all names1 (decompose_all names2 soup)
    = decompose_all names2 (decompose_all names1 soup).
Proof.
  assert (∀ a b, decompose_all b (decompose_all a soup)
                 = decompose_all (a ++ b) soup) as Hcompose.
  { intros a b. unfold decompose_all. rewrite flat_map_flat_map.
    apply flat_map_ext_Forall, Forall_forall. intros n _.
    apply decompose_twice. }
  split; [apply Hcompose |]. rewrite !Hcompose.
  unfold decompose_all. apply flat_map_ext_Forall, Forall_forall.
  intros n _. apply decompose_same_names. intros name.
  rewrite !elem_of_app. tauto.
Qed.

Section CleanerProperties2.
Context {U : Unicode} {P : Parser}.

Lemma filter_line_survives acc line :
  filter_line acc line
  = acc ++ (if survives line then [strip line] else []).
Proof.
  unfold filter_line, survives.
  destruct (has_ad_keyword line), (truthy (strip line)),
    (re_match_punct line); simpl; by rewrite ?app_nil_r.
Qed.

Lemma fold_filter_line_survivors lines acc :
  fold_left filter_line lines acc
  = acc ++ map strip (filter (λ line, survives line = true) lines).
Proof.
  revert acc. induction lines as [|line lines IH]; intros acc; simpl;
    [by rewrite app_nil_r |].
  rewrite IH, filter_line_survives, filter_cons.
  destruct (survives line) eqn:Hline.
  - rewrite decide_True by done. simpl. by rewrite <- app_assoc.
  - rewrite decide_False by done. by rewrite app_nil_r.
Qed.

Lemma survivors_truthy (lines : list str) :
  filter (λ l, truthy l = true)
         (map strip (filter (λ line, survives line = true) lines))
  = map strip (filter (λ line, survives line = true) lines).
Proof.
  induction lines as [|line lines IH]; [done |].
  rewrite filter_cons. case_decide as Hline; [| done]. simpl.
  rewrite filter_cons_True, IH; [done |].
  unfold survives in Hline.
  by destruct (has_ad_keyword line), (truthy (strip line)).
Qed.

(** X1: The lines of the cleaned text are the lines of the extracted text
    that hold no advertising keyword, are not empty once stripped and are
    not punctuation only, stripped, in their order and as often as they
    occur. *)
Theorem clean_text_lines_are_survivors html :
  lines_of (clean_text html)
  = map strip (filter (λ line, survives line = true)
                      (split NL (page_text html))).
Proof.
  rewrite lines_of_clean_text. unfold kept_lines.
  rewrite fold_filter_line_survivors. simpl. apply survivors_truthy.
Qed.

(** X2: The cleaned text is its lines joined by one blank line; neither the
    text nor any of its lines starts or ends with white space, and no
    line is empty. *)
Theorem clean_text_paragraphs html :
  join NL2 (lines_of (clean_text html)) = clean_text html
  ∧ stripped (clean_text html)
  ∧ Forall (λ l, truthy l = true ∧ stripped l ∧ NL ∉ l)
           (lines_of (clean_text html)).
Proof.
  split; [by rewrite lines_of_clean_text |].
  split; [apply clean_text_stripped |].
  rewrite lines_of_clean_text.
  pose proof (kept_lines_stripped (page_text html)) as Hs.
  pose proof (kept_lines_paragraphs (page_text html)) as Hp.
  rewrite Forall_forall in Hs, Hp. apply Forall_forall.
  intros l Hl. destruct (Hs l Hl), (Hp l Hl). done.
Qed.
End CleanerProperties2.
(** ** Properties of the scraper and of the batch orchestrator *)

(** Runs a computation symbolically: unfolds the combinators and splits on
    what every collaborator call answers. *)
Ltac run :=
  unfold bind, ret, call, try_except, finally, when, print, write_file in *;
  simpl in *;
  repeat first [case_match | progress intros | progress simplify_eq/=];
  try done.

Section Properties.
Context {U : Unicode} {P : Parser} {B : Browser} {F : FileSystem B}.

Lemma try_except_returns {A} (m : M A) handler s a s' :
  m s = (inr a, s') -> try_except m handler s = (inr a, s').
Proof. intros Hm. unfold try_except. by rewrite Hm. Qed.

Lemma try_except_handles {A} (m : M A) handler s e s' :
  m s = (inl e, s') -> try_except m handler s = handler e s'.
Proof. intros Hm. unfold try_except. by rewrite Hm. Qed.

(** The detector always returns, and what it returns is a candidate or
    the fallback. *)
Lemma detect_loop_returns d selectors s :
  ∃ sel s', detect_loop d selectors s = (inr sel, s')
            ∧ (sel ∈ selectors ∨ sel = body_selector).
Proof.
  revert s. induction selectors as [|c rest IH]; intros s.
  - eexists _, _. split; [reflexivity | by right].
  - cbn [detect_loop]. unfold bind at 1.
    destruct (try_except (probe d c) (λ _, ret None) s) as [[e|[found|]] s1] eqn:Hp.
    + exfalso. revert Hp. unfold probe. run.
    + assert (found = c) as ->. { revert Hp. unfold probe. run. }
      eexists _, _. split; [reflexivity | left; constructor].
    + destruct (IH s1) as (sel & s' & -> & Hsel).
      eexists _, _. split; [reflexivity |].
      destruct Hsel; [left; by constructor | by right].
Qed.

Lemma potential_selectors_truthy sel :
  sel ∈ potential_selectors ∨ sel = body_selector -> truthy sel = true.
Proof.
  intros [Hin | ->]; [| reflexivity].
  unfold potential_selectors in Hin.
  repeat (apply elem_of_cons in Hin as [-> | Hin]; [reflexivity |]).
  by apply elem_of_nil in Hin.
Qed.

Lemma bind_returns_inv {A C} (m : M A) (k : A -> M C) s c s' :
  bind m k s = (inr c, s') ->
  ∃ a s1, m s = (inr a, s1) ∧ k a s1 = (inr c, s').
Proof.
  unfold bind. destruct (m s) as [[e|a] s1]; [done |]. eauto.
Qed.

Lemma detect_content_selector_truthy d s sel s' :
  detect_content_selector d s = (inr sel, s') -> truthy sel = true.
Proof.
  intros Hd. destruct (detect_loop_returns d potential_selectors s)
    as (sel0 & s0 & Hrun & Hin).
  unfold detect_content_selector in Hd. rewrite Hrun in Hd.
  simplify_eq. by apply potential_selectors_truthy.
Qed.

(** One candidate: what the guarded lookup of the detector yields. *)
Lemma probe_qualifies d c s :
  try_except (probe d c) (λ _, ret None) s
  = let '(q, w') := qualifies d c (world s) in
    if q
    then (inr (Some c),
          {| world := w';
             stdout := stdout s ++ [py "检测到内容选择器: " ++ c];
             files := files s |})
    else (inr None, on_world (λ _, w') s).
Proof.
  unfold probe, qualifies, try_except, bind, call, on_world, print, ret.
  destruct (driver_find_elements d c (world s)) as [[e|[|first els]] w1];
    simpl; try done.
  destruct (element_text first w1) as [[e|text] w2]; simpl; try done.
  by destruct (500 <? length text)%nat.
Qed.

Lemma detect_loop_first_qualifying d candidates s :
  ∃ sel s',
    detect_loop d candidates s = (inr sel, s')
    ∧ files s' = files s
    ∧ ((∃ skipped later w1,
          candidates = skipped ++ sel :: later
          ∧ all_skipped d skipped (world s) = Some w1
          ∧ qualifies d sel w1 = (true, world s')
          ∧ stdout s' = stdout s ++ [py "检测到内容选择器: " ++ sel])
       ∨ (sel = body_selector
          ∧ all_skipped d candidates (world s) = Some (world s')
          ∧ stdout s'
            = stdout s ++ [py "未检测到合适的内容选择器，使用默认选择器"])).
Proof.
  revert s. induction candidates as [|c rest IH]; intros s.
  - eexists _, _. split; [reflexivity |]. split; [done |]. right. done.
  - cbn [detect_loop]. unfold bind at 1. rewrite probe_qualifies.
    destruct (qualifies d c (world s)) as [[|] w'] eqn:Hq.
    + eexists _, _. split; [reflexivity |]. split; [done |]. left.
      exists [], rest, (world s). done.
    + destruct (IH (on_world (λ _, w') s))
        as (sel & s' & Hrun & Hfiles & Hsel).
      exists sel, s'. split; [done |]. split; [done |].
      destruct Hsel as [(skipped & later & w1 & -> & Hskip & Hsel & Hout)
                       | (-> & Hskip & Hout)].
      * left. exists (c :: skipped), later, w1. simpl. rewrite Hq. done.
      * right. simpl. rewrite Hq. done.
Qed.

(** C5: the detector always returns, never raises.  It returns the first
    candidate of the priority list that qualifies (its lookup answers at
    least one element and the text of the first is longer than 500
    characters) on the page as it is when that candidate is looked up,
    after every earlier candidate was looked up and did not qualify, a
    lookup that raised included; when no candidate qualifies it returns
    the whole-document selector [body]. *)
Theorem detect_content_selector_first_qualifying d s :
  ∃ sel s',
    detect_content_selector d s = (inr sel, s')
    ∧ files s' = files s
    ∧ ((∃ skipped later w1,
          potential_selectors = skipped ++ sel :: later
          ∧ all_skipped d skipped (world s) = Some w1
          ∧ qualifies d sel w1 = (true, world s')
          ∧ stdout s' = stdout s ++ [py "检测到内容选择器: " ++ sel])
       ∨ (sel = body_selector
          ∧ all_skipped d potential_selectors (world s) = Some (world s')
          ∧ stdout s'
            = stdout s ++ [py "未检测到合适的内容选择器，使用默认选择器"])).
Proof. apply detect_loop_first_qualifying. Qed.

(** What the [try] body returns when it returns. *)
Lemma scrape_body_returns d u sel t h s r s' :
  scrape_body d u sel t h s = (inr r, s') ->
  r.(url) = u ∧ r.(error) = None
  ∧ ∃ found, r.(selector) = Some found ∧ truthy found = true
             ∧ (selector_given sel = true -> sel = Some found).
Proof.
  unfold scrape_body. intros Hrun.
  do 4 (apply bind_returns_inv in Hrun as (? & ? & _ & Hrun)).
  apply bind_returns_inv in Hrun as (found & s1 & Hsel & Hrun).
  do 4 (apply bind_returns_inv in Hrun as (? & ? & _ & Hrun)).
  unfold ret in Hrun. simplify_eq/=. do 2 (split; [done |]).
  exists found. split; [done |].
  destruct sel as [[|c sel]|]; simpl in *;
    try (split; [by eapply detect_content_selector_truthy | done]).
  unfold ret in Hsel. by simplify_eq.
Qed.
Lemma bind_raises_inv {A C} (m : M A) (k : A -> M C) s e s' :
  bind m k s = (inl e, s') ->
  m s = (inl e, s') ∨ ∃ a s1, m s = (inr a, s1) ∧ k a s1 = (inl e, s').
Proof.
  unfold bind. destruct (m s) as [[e0|a] s1]; intros Hk.
  - left. by simplify_eq.
  - right. by exists a, s1.
Qed.

(** The three ways [scrape_text] ends: the session cannot be acquired and
    the exception leaves the function; the [try] body returns; the body
    raises and the handler returns the error record. *)
Lemma scrape_text_unfold u sel t h s :
  scrape_text u sel t h s =
  match webdriver_Chrome (chrome_options h) (world s) with
  | (inl e, w) => (inl e, on_world (λ _, w) s)
  | (inr d, w) =>
    match scrape_body d u sel t h (on_world (λ _, w) s) with
    | (inr r, s2) => (inr r, on_world (driver_quit d) s2)
    | (inl e, s2) => (inr (error_result u e), after_failure d u e s2)
    end
  end.
Proof.
  unfold scrape_text, setup_driver, scrape_handler, error_result,
    after_failure.
  unfold bind at 1, call at 1.
  destruct (webdriver_Chrome _ _) as [[e|d] w]; [done |].
  unfold finally, try_except.
  destruct (scrape_body _ _ _ _ _ _) as [[e|r] s2]; [| done].
  reflexivity.
Qed.

(** Either result of a scrape carries the URL it was asked for. *)
Lemma scrape_text_returns u sel t h s r s' :
  scrape_text u sel t h s = (inr r, s') -> r.(url) = u.
Proof.
  rewrite scrape_text_unfold. intros Hrun.
  repeat case_match; simplify_eq/=;
    first [done | by eapply scrape_body_returns].
Qed.

Lemma scrape_text_raises u sel t h s e s' :
  scrape_text u sel t h s = (inl e, s') ->
  ∃ w, webdriver_Chrome (chrome_options h) (world s) = (inl e, w).
Proof.
  rewrite scrape_text_unfold. intros Hrun.
  repeat case_match; simplify_eq/=. eauto.
Qed.

(** In this model, where the cleaner is a function and raises nothing, an
    exception that leaves the [try] body was raised by navigation, by one
    of the two sleeps, by the lookup of the content element or by the
    extraction of its markup: the detector and the bounded wait keep
    theirs. *)
Lemma scrape_body_raises d u sel t h s e s' :
  scrape_body d u sel t h s = (inl e, s') ->
  ∃ w w',
    driver_get d u w = (inl e, w')
    ∨ (∃ secs, time_sleep secs w = (inl e, w'))
    ∨ (∃ found, driver_find_element d found w = (inl e, w'))
    ∨ (∃ el attr, element_get_attribute el attr w = (inl e, w')).
Proof.
  unfold scrape_body. intros Hrun.
  apply bind_raises_inv in Hrun as [Hrun | (? & s1 & _ & Hrun)].
  { revert Hrun. run. eauto 10. }
  apply bind_raises_inv in Hrun as [Hrun | (? & s2 & _ & Hrun)]; [revert Hrun; run |].
  apply bind_raises_inv in Hrun as [Hrun | (? & s3 & _ & Hrun)].
  { revert Hrun. run. eauto 10. }
  apply bind_raises_inv in Hrun as [Hrun | (? & s4 & _ & Hrun)].
  { revert Hrun. run. eauto 10. }
  apply bind_raises_inv in Hrun as [Hrun | (found & s5 & _ & Hrun)].
  { exfalso. destruct sel as [[|c sel]|]; simpl in Hrun; try done;
      destruct (detect_loop_returns d potential_selectors s4)
        as (? & ? & Hd & _);
      unfold detect_content_selector in Hrun; congruence. }
  apply bind_raises_inv in Hrun as [Hrun | (? & s6 & _ & Hrun)]; [revert Hrun; run |].
  apply bind_raises_inv in Hrun as [Hrun | (el & s7 & _ & Hrun)].
  { revert Hrun. run. eauto 10. }
  apply bind_raises_inv in Hrun as [Hrun | (html & s8 & _ & Hrun)].
  { revert Hrun. run. eauto 10. }
  revert Hrun. run.
Qed.


(** The results collected so far follow the URLs processed so far; the
    only way out of the loop other than its end is an exception of the
    session acquisition. *)
Lemma batch_loop_collects total t h urls i sel acc s :
  match batch_loop total t h urls i sel acc s with
  | (inr all_content, _) => map url all_content = map url acc ++ urls
  | (inl e, _) => ∃ opts w w', webdriver_Chrome opts w = (inl e, w')
  end.
Proof.
  revert i sel acc s. induction urls as [|u rest IH]; intros i sel acc s.
  - simpl. unfold ret. by rewrite app_nil_r.
  - cbn [batch_loop]. unfold bind at 1 2. unfold print at 1.
    destruct (scrape_text u sel t h _) as [[e|r] s1] eqn:Hrun.
    + apply scrape_text_raises in Hrun as [w Hw]. eauto.
    + apply scrape_text_returns in Hrun.
      match goal with |- context [batch_loop _ _ _ rest ?i' ?sel' ?acc' s1] =>
        specialize (IH i' sel' acc' s1);
        destruct (batch_loop total t h rest i' sel' acc' s1) as [[e|rs] s2]
      end; [done |].
      rewrite IH, map_app. simpl. rewrite Hrun, <- app_assoc. done.
Qed.


(** After the first URL the selector of the loop no longer changes. *)
Lemma batch_loop_later total t h urls i sel acc s :
  (1 < i)%nat ->
  batch_loop total t h urls i sel acc s
  = (rs <- scrape_each total t h sel urls i;; ret (acc ++ rs)) s.
Proof.
  revert i acc s. induction urls as [|u rest IH]; intros i acc s Hi.
  - simpl. unfold bind, ret. by rewrite app_nil_r.
  - cbn [batch_loop scrape_each].
    assert ((i =? 1)%nat = false) as -> by (apply Nat.eqb_neq; lia).
    cbn [andb].
    unfold progress_line, bind, print, ret.
    destruct (scrape_text u sel t h _) as [[e|r] s1]; [done |].
    rewrite IH by lia. unfold bind, ret.
    destruct (scrape_each total t h sel rest (S i) s1) as [[e|rs] s2]; [done |].
    by rewrite <- app_assoc.
Qed.

(** A scrape that is given a selector never looks at what the lookups of
    the detector would answer: the detector is not run. *)
Lemma scrape_text_given_selector find_elements text u found t h s :
  truthy found = true ->
  scrape_text (B := with_lookups B find_elements text) u (Some found) t h s
  = scrape_text u (Some found) t h s.
Proof.
  intros Hfound. unfold scrape_text, scrape_body. simpl. rewrite Hfound.
  reflexivity.
Qed.

(** C1: when the caller supplies no selector and the first scrape returns
    a result with a selector, the rest of the batch is the scrape of each
    remaining URL with exactly that selector; the selector is not empty, so
    these scrapes do not run the detector, whatever its lookups would
    answer. *)
Theorem batch_reuses_first_selector total t h u1 rest sel s r1 s1 found :
  selector_given sel = false ->
  scrape_text u1 sel t h
    {| world := world s; stdout := stdout s ++ [progress_line 1 total];
       files := files s |} = (inr r1, s1) ->
  r1.(selector) = Some found ->
  batch_loop total t h (u1 :: rest) 1 sel [] s
  = (rs <- scrape_each total t h (Some found) rest 2;; ret (r1 :: rs)) s1
  ∧ selector_given (Some found) = true
  ∧ ∀ find_elements text u s',
      scrape_text (B := with_lookups B find_elements text)
                  u (Some found) t h s'
      = scrape_text u (Some found) t h s'.
Proof.
  intros Hsel Hrun Hfound.
  assert (truthy found = true) as Htruthy.
  { rewrite scrape_text_unfold in Hrun.
    repeat case_match; simplify_eq/=.
    match goal with H : scrape_body _ _ _ _ _ _ = _ |- _ =>
      apply scrape_body_returns in H as (_ & _ & f & Hf & Ht & _) end.
    congruence. }
  split; [| split; [done |]].
  - cbn [batch_loop]. unfold bind at 1 2. unfold print at 1.
    fold (progress_line 1 total). rewrite Hrun.
    rewrite Hsel. cbn [Nat.eqb andb negb].
    destruct r1 as [? ? rsel ?]. simpl in Hfound. subst rsel.
    rewrite batch_loop_later by lia. reflexivity.
  - intros. by apply scrape_text_given_selector.
Qed.
Lemma print_all_prints lines s :
  print_all lines s
  = (inr (), {| world := world s; stdout := stdout s ++ lines;
                files := files s |}).
Proof.
  revert s. induction lines as [|line rest IH]; intros s.
  - simpl. unfold ret. rewrite app_nil_r. by destruct s.
  - cbn [print_all]. unfold bind, print. rewrite IH. simpl.
    by rewrite <- app_assoc.
Qed.

(** The three ways [write_file] ends. *)
Lemma write_file_returns path append text s w1 w2 :
  open_file path append (world s) = (inr (), w1) ->
  file_write path text w1 = (inr (), w2) ->
  write_file path append text s
  = (inr (),
     {| world := w2; stdout := stdout s;
        files := <[path := (if append then default [] (files s !! path)
                            else []) ++ text]> (files s) |}).
Proof.
  intros Hopen Hwrite. unfold write_file, bind, call, on_world, on_files.
  rewrite Hopen. cbn [world stdout files]. rewrite Hwrite.
  by rewrite lookup_insert_eq, insert_insert_eq.
Qed.

Lemma write_file_open_raises path append text s e w1 :
  open_file path append (world s) = (inl e, w1) ->
  write_file path append text s = (inl e, on_world (λ _, w1) s).
Proof.
  intros Hopen. unfold write_file, bind, call. by rewrite Hopen.
Qed.

Lemma write_file_write_raises path append text s w1 e n w2 :
  open_file path append (world s) = (inr (), w1) ->
  file_write path text w1 = (inl (e, n), w2) ->
  write_file path append text s
  = (inl e,
     {| world := w2; stdout := stdout s;
        files := <[path := (if append then default [] (files s !! path)
                            else []) ++ take n text]> (files s) |}).
Proof.
  intros Hopen Hwrite. unfold write_file, bind, call, on_world, on_files.
  rewrite Hopen. cbn [world stdout files]. rewrite Hwrite.
  by rewrite lookup_insert_eq, insert_insert_eq.
Qed.

(** Once the loop has returned and the output file is written, the
    summary is printed. *)
Lemma batch_scrape_report urls out sel t h append s all_content s1 w1 w2 :
  batch_loop (length urls) t h urls 1 sel [] s = (inr all_content, s1) ->
  open_file out append (world s1) = (inr (), w1) ->
  file_write out (combined_text all_content) w1 = (inr (), w2) ->
  batch_scrape urls out sel t h append s
  = (inr (), after_report out append all_content w2 s1).
Proof.
  intros Hloop Hopen Hwrite. unfold batch_scrape. unfold bind at 1.
  rewrite Hloop. unfold bind at 1.
  rewrite (write_file_returns _ _ _ _ _ _ Hopen Hwrite).
  unfold bind, print. rewrite print_all_prints.
  unfold after_report. cbn [world stdout files].
  by rewrite <- !app_assoc.
Qed.

(** The three ways a batch ends early: the loop raises, the output file
    cannot be opened, or it cannot be written. *)
Lemma batch_scrape_loop_raises urls out sel t h append s e s1 :
  batch_loop (length urls) t h urls 1 sel [] s = (inl e, s1) ->
  batch_scrape urls out sel t h append s = (inl e, s1).
Proof.
  intros Hloop. unfold batch_scrape. unfold bind at 1. by rewrite Hloop.
Qed.

Lemma batch_scrape_open_raises urls out sel t h append s all_content s1
    e w1 :
  batch_loop (length urls) t h urls 1 sel [] s = (inr all_content, s1) ->
  open_file out append (world s1) = (inl e, w1) ->
  batch_scrape urls out sel t h append s
  = (inl e, on_world (λ _, w1) s1).
Proof.
  intros Hloop Hopen. unfold batch_scrape. unfold bind at 1.
  rewrite Hloop. unfold bind at 1.
  by rewrite (write_file_open_raises _ _ _ _ _ _ Hopen).
Qed.

Lemma batch_scrape_write_raises urls out sel t h append s all_content s1
    w1 e n w2 :
  batch_loop (length urls) t h urls 1 sel [] s = (inr all_content, s1) ->
  open_file out append (world s1) = (inr (), w1) ->
  file_write out (combined_text all_content) w1 = (inl (e, n), w2) ->
  batch_scrape urls out sel t h append s
  = (inl e,
     {| world := w2; stdout := stdout s1;
        files := <[out := (if append then default [] (files s1 !! out)
                           else [])
                          ++ take n (combined_text all_content)]>
                   (files s1) |}).
Proof.
  intros Hloop Hopen Hwrite. unfold batch_scrape. unfold bind at 1.
  rewrite Hloop. unfold bind at 1.
  by rewrite (write_file_write_raises _ _ _ _ _ _ _ _ Hopen Hwrite).
Qed.





End Properties.


(** ** More properties of the scraper, the batch and the entry point *)

Section MoreProperties.
Context {U : Unicode} {P : Parser} {B : Browser} {F : FileSystem B}.

(** *** What a run leaves alone *)

Lemma grows_refl (s : State W) : grows s s.
Proof. split; [done |]. exists []. by rewrite app_nil_r. Qed.

Lemma grows_trans (s1 s2 s3 : State W) :
  grows s1 s2 -> grows s2 s3 -> grows s1 s3.
Proof.
  intros [Hf1 [o1 Ho1]] [Hf2 [o2 Ho2]]. split; [congruence |].
  exists (o1 ++ o2). by rewrite Ho2, Ho1, app_assoc.
Qed.

Lemma frames_ret {A} (a : A) : frames (ret a).
Proof. intros s. apply grows_refl. Qed.

Lemma frames_call {A} (op : W -> (exn + A) * W) : frames (call op).
Proof.
  intros s. unfold call. destruct (op (world s)) as [r w]. simpl.
  split; [done |]. exists []. by rewrite app_nil_r.
Qed.

Lemma frames_print line : frames (print line).
Proof. intros s. split; [done |]. by exists [line]. Qed.

Lemma frames_bind {A C} (m : M A) (k : A -> M C) :
  frames m -> (∀ a, frames (k a)) -> frames (bind m k).
Proof.
  intros Hm Hk s. unfold bind. specialize (Hm s).
  destruct (m s) as [[e|a] s1]; [done |].
  eapply grows_trans; [exact Hm | apply Hk].
Qed.

Lemma frames_try_except {A} (m : M A) handler :
  frames m -> (∀ e, frames (handler e)) -> frames (try_except m handler).
Proof.
  intros Hm Hh s. unfold try_except. specialize (Hm s).
  destruct (m s) as [[e|a] s1]; [| done].
  eapply grows_trans; [exact Hm | apply Hh].
Qed.

Lemma frames_finally {A} (m : M A) f :
  frames m -> frames (finally m (on_world f)).
Proof.
  intros Hm s. unfold finally. specialize (Hm s).
  destruct (m s) as [r s1]. exact Hm.
Qed.

Lemma frames_when b m : frames m -> frames (when b m).
Proof. intros Hm. destruct b; [done | apply frames_ret]. Qed.

(** Splits a computation into its calls, prints and handlers. *)
Ltac frame :=
  repeat first
    [ apply frames_ret | apply frames_call | apply frames_print
    | apply frames_when
    | apply frames_bind; [| intros ?]
    | apply frames_try_except; [| intros ?]
    | apply frames_finally
    | match goal with
      | |- frames (match ?x with _ => _ end) => destruct x
      end ].

Lemma frames_detect_loop d candidates : frames (detect_loop d candidates).
Proof.
  induction candidates as [|c rest IH]; cbn [detect_loop]; [frame |].
  apply frames_bind; [unfold probe; frame |].
  intros [found|]; [apply frames_ret | exact IH].
Qed.

Lemma frames_scrape_text u sel t h : frames (scrape_text u sel t h).
Proof.
  unfold scrape_text, setup_driver, scrape_body, scrape_handler,
    detect_content_selector.
  frame; apply frames_detect_loop.
Qed.


(** X8: A scrape writes no file and takes back no printed line: the files are
    as before and the output is the old output followed by new lines. *)
Theorem scrape_text_touches_no_file u sel t h s :
  files (scrape_text u sel t h s).2 = files s
  ∧ ∃ out, stdout (scrape_text u sel t h s).2 = stdout s ++ out.
Proof. apply frames_scrape_text. Qed.

(** X7: The session of a scrape is released on every way out: once the
    driver is acquired, the last thing that happens to the world is its
    [quit]; when the acquisition raises there is no driver to quit. *)
Theorem scrape_text_releases_session u sel t h s :
  match webdriver_Chrome (chrome_options h) (world s) with
  | (inr d, w) =>
    ∃ w2, world (scrape_text u sel t h s).2 = driver_quit d w2
  | (inl e, w) => world (scrape_text u sel t h s).2 = w
  end.
Proof.
  rewrite scrape_text_unfold.
  destruct (webdriver_Chrome _ _) as [[e|d] w]; [done |].
  destruct (scrape_body _ _ _ _ _ _) as [[e|r] s2]; simpl; eauto.
Qed.

(** X6: A result is of one of two shapes: a selector that is not empty and no
    error, or an error with an empty content and no selector.  A selector
    the caller gave is the one the result reports. *)
Theorem scrape_text_result_shape u sel t h s r s' :
  scrape_text u sel t h s = (inr r, s') ->
  r.(url) = u
  ∧ ((r.(error) = None
      ∧ ∃ found, r.(selector) = Some found ∧ truthy found = true
                 ∧ (selector_given sel = true -> sel = Some found))
     ∨ (r.(content) = [] ∧ r.(selector) = None
        ∧ ∃ e, r.(error) = Some (exn_str e))).
Proof.
  intros Hrun. split; [by eapply scrape_text_returns |].
  rewrite scrape_text_unfold in Hrun.
  repeat case_match; simplify_eq/=.
  - right. eauto.
  - left. match goal with H : scrape_body _ _ _ _ _ _ = _ |- _ =>
      apply scrape_body_returns in H as (_ & Herr & Hsel) end.
    done.
Qed.

(** *** The detector on a page that lookups leave unchanged *)

Lemma qualifies_read_only d c w :
  lookups_read_only -> (qualifies d c w).2 = w.
Proof.
  intros [Hfe Hte]. unfold qualifies. specialize (Hfe d c w).
  destruct (driver_find_elements d c w) as [[e|[|first els]] w1];
    simpl in *; subst; try done.
  specialize (Hte first w).
  destruct (element_text first w) as [[e|text] w2]; simpl in *; by subst.
Qed.

Lemma detect_loop_read_only d candidates s :
  lookups_read_only ->
  ∃ s',
    detect_loop d candidates s
    = (inr (hd body_selector
               (filter (λ c, (qualifies d c (world s)).1 = true)
                       candidates)), s')
    ∧ world s' = world s.
Proof.
  intros Hro. revert s.
  induction candidates as [|c rest IH]; intros s.
  - eexists. split; reflexivity.
  - cbn [detect_loop]. unfold bind at 1. rewrite probe_qualifies.
    pose proof (qualifies_read_only d c (world s) Hro) as Hw.
    destruct (qualifies d c (world s)) as [[|] w'] eqn:Hq;
      simpl in Hw; subst w'.
    + eexists. rewrite filter_cons_True by (by rewrite Hq).
      split; reflexivity.
    + destruct (IH (on_world (λ _, world s) s)) as (s' & Hrun & Hs').
      exists s'. rewrite filter_cons_False by (by rewrite Hq).
      split; done.
Qed.

(** X5: On a page that the lookups leave unchanged, the detector returns the
    head of the candidates that qualify on it, [body] when there is none,
    and leaves the page as it is. *)
Theorem detect_content_selector_read_only d s :
  lookups_read_only ->
  ∃ s',
    detect_content_selector d s
    = (inr (hd body_selector
               (filter (λ c, (qualifies d c (world s)).1 = true)
                       potential_selectors)), s')
    ∧ world s' = world s.
Proof. apply detect_loop_read_only. Qed.
(** *** The selector along a batch *)

Lemma bind_ret_same {A} (m : M A) s : bind m (λ a, ret a) s = m s.
Proof. unfold bind, ret. by destruct (m s) as [[e|a] s1]. Qed.

Lemma batch_loop_empty_selector total t h urls i acc s :
  batch_loop total t h urls i (Some []) acc s
  = batch_loop total t h urls i None acc s.
Proof.
  revert i acc s. induction urls as [|u rest IH]; intros i acc s;
    [done |].
  cbn [batch_loop].
  change (scrape_text u (Some []) t h) with (scrape_text u None t h).
  unfold bind, print.
  destruct (scrape_text u None t h _) as [[e|[ru rc [found|] re]] s1];
    [done | |]; simpl; destruct (i =? 1)%nat; simpl; by rewrite ?IH.
Qed.

(** X10: An empty string as selector is no selector: the whole batch runs as
    if the caller had given none. *)
Theorem batch_empty_selector_is_no_selector urls out t h append s :
  batch_scrape urls out (Some []) t h append s
  = batch_scrape urls out None t h append s.
Proof.
  unfold batch_scrape. unfold bind at 1 4.
  by rewrite batch_loop_empty_selector.
Qed.

Lemma batch_loop_given total t h urls i sel acc s :
  selector_given sel = true ->
  batch_loop total t h urls i sel acc s
  = (rs <- scrape_each total t h sel urls i;; ret (acc ++ rs)) s.
Proof.
  intros Hsel. revert i acc s.
  induction urls as [|u rest IH]; intros i acc s.
  - simpl. unfold bind, ret. by rewrite app_nil_r.
  - cbn [batch_loop scrape_each]. rewrite Hsel, andb_false_r.
    unfold progress_line, bind, print, ret.
    destruct (scrape_text u sel t h _) as [[e|r] s1]; [done |].
    rewrite IH. unfold bind, ret.
    destruct (scrape_each total t h sel rest (S i) s1) as [[e|rs] s2];
      [done |].
    by rewrite <- app_assoc.
Qed.

(** X11: A selector the caller gives is passed as it is to every scrape of the
    batch, the first included: nothing a page reports replaces it. *)
Theorem batch_given_selector_everywhere total t h urls sel s :
  selector_given sel = true ->
  batch_loop total t h urls 1 sel [] s
  = scrape_each total t h sel urls 1 s.
Proof.
  intros Hsel. rewrite batch_loop_given by done. apply bind_ret_same.
Qed.

(** X12: A selector is adopted after the first URL only: when the first result
    carries none (the first scrape failed), every remaining URL is
    scraped with the selector of the caller, so without one each of them
    detects for itself. *)
Theorem batch_first_without_selector total t h u1 rest sel s r1 s1 :
  scrape_text u1 sel t h
    {| world := world s; stdout := stdout s ++ [progress_line 1 total];
       files := files s |} = (inr r1, s1) ->
  r1.(selector) = None ->
  batch_loop total t h (u1 :: rest) 1 sel [] s
  = (rs <- scrape_each total t h sel rest 2;; ret (r1 :: rs)) s1.
Proof.
  intros Hrun Hnone. cbn [batch_loop]. unfold bind at 1 2.
  unfold print at 1. fold (progress_line 1 total). rewrite Hrun.
  destruct r1 as [ru rc rsel re]. simpl in Hnone. subst rsel.
  cbn [Nat.eqb andb]. destruct (negb (selector_given sel));
    by rewrite batch_loop_later by lia.
Qed.

(** *** What a batch writes and prints *)





End MoreProperties.

Section MainProperties.
Context {U : Unicode} {P : Parser} {B : Browser} {F : FileSystem B}
        {L : UrlFile B}.

(** X16: When no URL is given on the command line (none, or an empty one) and
    the URL file cannot be loaded, [main] reports it in one line and
    returns: no session is opened, no file is written. *)
Theorem main_load_failure args s e w :
  match args.(Args.url) with
  | Some u => truthy u
  | None => false
  end = false ->
  load_urls args.(Args.url_file) (world s) = (inl e, w) ->
  main args s
  = (inr (),
     {| world := w;
        stdout := stdout s ++ [py "无法加载URL文件: " ++ exn_str e];
        files := files s |}).
Proof.
  intros Hurl Hload. unfold main.
  assert (load_url_file args s
          = (inr None,
             {| world := w;
                stdout := stdout s ++ [py "无法加载URL文件: " ++ exn_str e];
                files := files s |})) as Hfile.
  { unfold load_url_file, try_except, bind, call. by rewrite Hload. }
  unfold bind at 1.
  destruct (Args.url args) as [[|c u]|]; simpl in Hurl; try done;
    cbn [truthy]; by rewrite Hfile.
Qed.


Lemma batch_scrape_raises urls out sel t h append s e s' :
  batch_scrape urls out sel t h append s = (inl e, s') ->
  (∃ opts w w', webdriver_Chrome opts w = (inl e, w'))
  ∨ (∃ w w', open_file out append w = (inl e, w'))
  ∨ (∃ text n w w', file_write out text w = (inl (e, n), w')).
Proof.
  intros Hrun.
  pose proof (batch_loop_collects (length urls) t h urls 1 sel [] s)
    as Hloop.
  destruct (batch_loop (length urls) t h urls 1 sel [] s)
    as [[e0|all_content] s1] eqn:Hl.
  { rewrite (batch_scrape_loop_raises _ _ _ _ _ _ _ _ _ Hl) in Hrun.
    left. by simplify_eq. }
  destruct (open_file out append (world s1)) as [[e1|[]] w1] eqn:Hopen.
  { rewrite (batch_scrape_open_raises _ _ _ _ _ _ _ _ _ _ _ Hl Hopen)
      in Hrun.
    right. left. simplify_eq. eauto. }
  destruct (file_write out (combined_text all_content) w1)
    as [[[e2 n]|[]] w2] eqn:Hwrite.
  - rewrite (batch_scrape_write_raises _ _ _ _ _ _ _ _ _ _ _ _ _
               Hl Hopen Hwrite) in Hrun.
    right. right. simplify_eq. eauto.
  - by rewrite (batch_scrape_report _ _ _ _ _ _ _ _ _ _ _ Hl Hopen Hwrite)
      in Hrun.
Qed.

Lemma load_url_file_returns args s :
  ∃ urls s1, load_url_file args s = (inr urls, s1).
Proof.
  unfold load_url_file, try_except, bind, call, print, ret.
  destruct (load_urls _ _) as [[e|urls] w]; eauto.
Qed.

(** X18: An exception that leaves [main] was raised by the session
    acquisition, by opening the output file or by writing it: a URL file
    that cannot be loaded is reported and a failed page is recorded,
    neither is raised. *)
Theorem main_raises_only_on_session_or_output args s :
  match main args s with
  | (inl e, _) =>
    (∃ opts w w', webdriver_Chrome opts w = (inl e, w'))
    ∨ (∃ w w', open_file args.(Args.output) args.(Args.append) w
               = (inl e, w'))
    ∨ (∃ text n w w',
         file_write args.(Args.output) text w = (inl (e, n), w'))
  | (inr _, _) => True
  end.
Proof.
  destruct (main args s) as [[e|[]] s'] eqn:Hmain; [| done].
  unfold main in Hmain. apply bind_raises_inv in Hmain
    as [Hurls | ([urls|] & s1 & _ & Hrun)].
  - exfalso. destruct (load_url_file_returns args s) as (o & s1 & Hload).
    destruct (Args.url args) as [u|]; [destruct (truthy u) |];
      [done | congruence | congruence].
  - by eapply batch_scrape_raises.
  - done.
Qed.
End MainProperties.
(** ** Runs on the scripted site *)






Lemma batch_reuses_first_selector_witness :
  @batch_loop ascii_unicode text_parser novel_browser
    2 30 true [py "u1"; py "u3"] 1 None [] init
  = (rs <- @scrape_each ascii_unicode text_parser novel_browser
             2 30 true (Some (py "div#content")) [py "u3"] 2;;
     ret ({| url := py "u1"; content := py "chapter of u1";
             selector := Some (py "div#content"); error := None |} :: rs))
      {| world := py "u1";
         stdout := [ progress_line 1 2; py "正在访问: u1";
                     py "检测到内容选择器: div#content";
                     py "警告: 从 u1 抓取的内容可能不完整" ];
         files := ∅ |}.
Proof.
  apply (@batch_reuses_first_selector ascii_unicode text_parser novel_browser
           2 30%Z true (py "u1") [py "u3"] None init);
    vm_compute; reflexivity.
Defined.



(** C3 on the code: with two successful pages the divider is written once,
    in front of the first label and on the same line, and the two sections
    are separated by a blank line only; the artifact of the specification
    has the divider line between them. *)
Theorem artifact_divider_is_not_between_sections :
  ∃ s2 text,
    @batch_scrape ascii_unicode text_parser novel_browser novel_files
      [py "u1"; py "u3"] (py "out") None 30 true false init
    = (inr (), s2)
    ∧ files s2 !! py "out" = Some text
    ∧ split NL text
      = [ []; []; replicate 50 61 ++ py "来源: u1"; []; py "chapter of u1";
          []; py "来源: u3"; []; py "chapter of u3" ]
    ∧ split NL (combined_text_spec
                  [ {| url := py "u1"; content := py "chapter of u1";
                       selector := Some (py "div#content"); error := None |};
                    {| url := py "u3"; content := py "chapter of u3";
                       selector := Some (py "div#content"); error := None |} ])
      = [ py "来源: u1"; []; py "chapter of u1"; []; replicate 50 61; [];
          py "来源: u3"; []; py "chapter of u3" ].
Proof.
  eexists _, _. split; [vm_compute; reflexivity |].
  split; [vm_compute; reflexivity |].
  split; vm_compute; reflexivity.
Qed.

(** Checks a text node of a given soup: every line is empty or holds a
    keyword. *)
Ltac noise_lines :=
  lazymatch goal with
  | |- Forall _ [] => constructor
  | |- Forall _ (_ :: _) =>
    constructor;
    [first [left; reflexivity | right; vm_compute; reflexivity]
    | noise_lines]
  end.

Ltac noise_node :=
  lazymatch goal with
  | |- noise (Tag _ _) =>
    simpl; first [left; solve [repeat constructor] | right; left; reflexivity]
  | |- noise (NavigableString _) =>
    unfold noise, noise_text;
    lazymatch goal with
    | |- Forall ?Q ?l =>
      let l' := eval vm_compute in l in change (Forall Q l')
    end;
    noise_lines
  | |- noise (Comment _) => exact I
  end.

Lemma clean_text_of_noise_witness :
  @clean_text ascii_unicode noise_page_parser noise_fragment = [].
Proof.
  apply (@clean_text_of_noise ascii_unicode noise_page_parser noise_fragment).
  change (Forall (@noise ascii_unicode) noise_soup).
  unfold noise_soup. repeat (apply List.Forall_cons; [noise_node |]).
  constructor.
Defined.

(** C9, as stated, fails: html.parser decodes character references, so a
    text whose cleaning still holds one is changed by a second cleaning
    into a line the first cleaning does not have. *)
Lemma recleaning_decodes_references :
  @clean_text ascii_unicode charref_parser (py "Tom &amp;amp; Jerry")
  = py "Tom &amp; Jerry"
  ∧ @clean_text ascii_unicode charref_parser (py "Tom &amp; Jerry")
    = py "Tom & Jerry"
  ∧ ¬ (lines_of (@clean_text ascii_unicode charref_parser
                   (@clean_text ascii_unicode charref_parser
                      (py "Tom &amp;amp; Jerry")))
       ⊆ lines_of (@clean_text ascii_unicode charref_parser
                     (py "Tom &amp;amp; Jerry"))).
Proof.
  split; [vm_compute; reflexivity |]. split; [vm_compute; reflexivity |].
  intros Hsub. specialize (Hsub (py "Tom & Jerry")).
  assert (py "Tom & Jerry" ∈ [py "Tom &amp; Jerry"]) as Hin.
  { apply Hsub. vm_compute. left. }
  apply list_elem_of_singleton in Hin. vm_compute in Hin. discriminate.
Qed.

Lemma clean_text_twice_lines_witness :
  lines_of (@clean_text ascii_unicode text_parser
              (@clean_text ascii_unicode text_parser
                 (py "one" ++ [NL] ++ py " ... " ++ [NL] ++ py "AD: x"
                  ++ [NL] ++ py "two")))
  ⊆ lines_of (@clean_text ascii_unicode text_parser
                (py "one" ++ [NL] ++ py " ... " ++ [NL] ++ py "AD: x"
                 ++ [NL] ++ py "two")).
Proof.
  apply (@clean_text_twice_lines ascii_unicode text_parser).
  vm_compute. reflexivity.
Defined.

(** ** More runs on the scripted site *)

Lemma detect_content_selector_read_only_witness :
  ∃ s',
    @detect_content_selector novel_browser ()
      {| world := py "u1"; stdout := []; files := ∅ |}
    = (inr (py "div#content"), s')
    ∧ world s' = py "u1".
Proof.
  destruct (detect_content_selector_read_only (B := novel_browser) ()
              {| world := py "u1"; stdout := []; files := ∅ |})
    as (s' & Hrun & Hworld).
  { split; intros; reflexivity. }
  exists s'. split; [| exact Hworld]. rewrite Hrun. vm_compute. reflexivity.
Defined.

Lemma scrape_text_result_shape_witness :
  chapter_u1.(url) = py "u1"
  ∧ ((chapter_u1.(error) = None
      ∧ ∃ found, chapter_u1.(selector) = Some found ∧ truthy found = true
                 ∧ (selector_given None = true -> None = Some found))
     ∨ (chapter_u1.(content) = [] ∧ chapter_u1.(selector) = None
        ∧ ∃ e, chapter_u1.(error) = Some (@exn_str novel_browser e))).
Proof.
  eapply (@scrape_text_result_shape ascii_unicode text_parser novel_browser
            (py "u1") None 30%Z true init chapter_u1).
  vm_compute. reflexivity.
Defined.

Lemma batch_given_selector_everywhere_witness :
  @batch_loop ascii_unicode text_parser novel_browser
    2 30 true [py "u1"; py "u3"] 1 (Some (py "body")) [] init
  = @scrape_each ascii_unicode text_parser novel_browser
      2 30 true (Some (py "body")) [py "u1"; py "u3"] 1 init.
Proof.
  apply (@batch_given_selector_everywhere ascii_unicode text_parser
           novel_browser).
  reflexivity.
Defined.

Lemma batch_first_without_selector_witness :
  @batch_loop ascii_unicode text_parser novel_browser
    3 30 true [py "u2"; py "u1"; py "u3"] 1 None [] init
  = (rs <- @scrape_each ascii_unicode text_parser novel_browser
             3 30 true None [py "u1"; py "u3"] 2;;
     ret (failed_u2 :: rs))
      {| world := [];
         stdout := [ progress_line 1 3;
                     py "抓取 u2 时发生错误: net::ERR_NAME_NOT_RESOLVED" ];
         files := ∅ |}.
Proof.
  apply (@batch_first_without_selector ascii_unicode text_parser
           novel_browser 3 30%Z true (py "u2") [py "u1"; py "u3"] None init);
    vm_compute; reflexivity.
Defined.



Lemma main_load_failure_witness :
  @main ascii_unicode text_parser novel_browser novel_files novel_url_file
    args_missing_file init
  = (inr (),
     {| world := [];
        stdout := [py "无法加载URL文件: [Errno 2] No such file or directory"];
        files := ∅ |}).
Proof.
  refine (eq_trans
            (@main_load_failure ascii_unicode text_parser novel_browser
               novel_files novel_url_file args_missing_file init
               (py "[Errno 2] No such file or directory") [] _ _) _);
    vm_compute; reflexivity.
Defined.

